(** * ZeroStack2D: a shallow embedding of the interpreter (ZeroStack2D.py)

    The development follows the layout of the Python source:
    - [Stack]   : class Stack, a linked list of Element nodes (lines 21-83);
    - [Startup] : program loading and the argument handling (lines 10-19, 88-97);
    - [Interp]  : the main execution loop (lines 99-202).

    Python integers are unbounded, so every stack value and coordinate is a
    [Z].  A character (a Python string of length one) is its code point, a
    Python string is the list of its code points. *)

From Stdlib Require Import ZArith List Bool Lia Ascii String.
Import ListNotations.
Local Open Scope Z_scope.

(** ** A small monad interface, shared by the stack and the interpreter *)

Class Monad (M : Type -> Type) : Type := {
  ret : forall {A : Type}, A -> M A;
  bind : forall {A B : Type}, M A -> (A -> M B) -> M B
}.

Declare Scope monad_scope.
Notation "x <- c1 ;; c2" := (bind c1 (fun x => c2))
  (at level 61, c1 at next level, right associativity) : monad_scope.
Notation "c1 ;; c2" := (bind c1 (fun _ => c2))
  (at level 61, right associativity) : monad_scope.
Local Open Scope monad_scope.

(** ** Characters and strings *)

(** A Python [str]: the sequence of its code points. *)
Definition str : Type := list Z.

(** The code point of an ASCII character literal of the source. *)
Definition cp (c : ascii) : Z := Z.of_N (N_of_ascii c).
Arguments cp c%_char.

(** A string literal of the source, as a [str]. *)
Definition lit (s : string) : str := map cp (list_ascii_of_string s).

(** [cmd in "..."] for a one-character [cmd]: substring search for a string
    of length one is membership of its character. *)
Definition char_in (cmd : Z) (s : string) : bool := existsb (Z.eqb cmd) (lit s).

(** Truth value of a Python int: [if a:] holds iff [a] is not zero. *)
Definition truthy (a : Z) : bool := negb (a =? 0).

(** ** class Stack (lines 30-83) *)

Module Stack.

(** The chain of [Element] nodes reachable from [self.head]: the data of the
    head node first, [[]] when [head is None]. *)
Definition t : Type := list Z.

(** A method of the class: it reads and updates [self] and returns a value.
    No method raises. *)
Definition St (A : Type) : Type := t -> A * t.

#[export] Instance Monad_St : Monad St := {
  ret := fun A (a : A) self => (a, self);
  bind := fun A B (c : St A) (k : A -> St B) self =>
            let (a, self') := c self in k a self'
}.

(** [__init__]: [self.head = None]. *)
Definition __init__ : t := [].

(** [__bool__]: [self.head is not None]. *)
Definition __bool__ : St bool :=
  fun self => (match self with [] => false | _ :: _ => true end, self).

(** [push]: a new node in front of the old head. *)
Definition push (data : Z) : St unit :=
  fun self => (tt, data :: self).

(** [pop]: [if not self: return 0]; otherwise the head's data is returned and
    the head moves to the next node. *)
Definition pop : St Z :=
  fun self =>
    match self with
    | [] => (0, self)
    | data :: next => (data, next)
    end.

(** [swap] (lines 65-75). *)
Definition swap : St unit :=
  nonempty <- __bool__ ;;
  (if negb nonempty then push 0 else ret tt) ;;
  a <- pop ;;
  b <- (nonempty <- __bool__ ;; if nonempty then pop else ret 0) ;;
  push a ;;
  push b.

(** [add] (lines 77-83). *)
Definition add (b : Z) : St unit :=
  a <- pop ;;
  push (b + a).

(** Number of nodes on the stack. *)
Definition size (self : t) : nat := List.length self.

(** Sequences of calls made on one stack object. *)
Inductive call : Type :=
| Push (data : Z)
| Pop.

Definition exec (self : t) (c : call) : t :=
  match c with
  | Push data => snd (push data self)
  | Pop => snd (pop self)
  end.

Definition execs (calls : list call) (self : t) : t :=
  fold_left exec calls self.

End Stack.

(** ** Exceptions and process termination *)

(** The Python exceptions the program can meet. *)
Inductive exn : Type :=
| IndexError
| TypeError
| ValueError
| OverflowError
| EOFError
| OSError
| SystemExit (code : Z).

(** How the Python runtime ends the process on an exception nobody catches:
    [SystemExit] gives its code as exit status and prints nothing, any other
    exception prints a traceback on standard error and gives status 1. *)
Record termination : Type := {
  status : Z;
  traceback : bool
}.

Definition terminate (e : exn) : termination :=
  match e with
  | SystemExit code => {| status := code; traceback := false |}
  | _ => {| status := 1; traceback := true |}
  end.

(** ** Program loading (lines 10-19 and 88-97) *)

Module Startup.

(** What argparse itself writes before it exits: the usage line with an
    error message (standard error), or the help text (standard output). *)
Inductive notice : Type :=
| Usage
| Help.

Inductive result (A : Type) : Type :=
| Return (a : A)
| Raised (e : exn).
Arguments Return {A} a.
Arguments Raised {A} e.

(** A computation of the loading phase: what was written, and the result. *)
Definition Loader (A : Type) : Type := list notice * result A.

Definition is_help (a : string) : bool :=
  String.eqb a "-h" || String.eqb a "--help".

Definition is_option (a : string) : bool :=
  match a with
  | String "-" (String _ _) => true
  | _ => false
  end.

(** [args.parse_args()] for the parser of lines 11-19, on [sys.argv[1:]]:
    one required positional [input_file], and the [-h]/[--help] option that
    argparse adds to every parser.  argparse reports a missing required
    argument, or arguments it does not recognise, by writing the usage and
    an error message and raising [SystemExit(2)]; the help option writes
    the help text and raises [SystemExit(0)].  (Abbreviated long options,
    the [--] separator and operands that look like negative numbers are
    not told apart from other dash-prefixed words.) *)
Fixpoint parse_known (argv : list string) (input_file : option string)
    (extras : bool) : Loader string :=
  match argv with
  | [] =>
      match input_file with
      | None => ([Usage], Raised (SystemExit 2))
      | Some f =>
          if extras then ([Usage], Raised (SystemExit 2)) else ([], Return f)
      end
  | a :: rest =>
      if is_help a then ([Help], Raised (SystemExit 0))
      else if is_option a then parse_known rest input_file true
      else
        match input_file with
        | None => parse_known rest (Some a) extras
        | Some _ => parse_known rest input_file true
        end
  end.

Definition parse_args (argv : list string) : Loader string :=
  parse_known argv None false.

Section Files.

(** [open(path, "r")] followed by [f.readlines()]: the lines of the file
    (each with its line terminator), or [None] when the file cannot be
    opened, which raises [OSError].  (A file that opens but does not decode
    is not part of the model.) *)
Variable readlines : string -> option (list str).

(** The body of the [try] (lines 89-94). [list(i)] of a line is the list of
    its characters. *)
Definition try_body (argv : list string) : Loader (list (list Z)) :=
  match parse_args argv with
  | (out, Return input_file) =>
      match readlines input_file with
      | Some pr => (out, Return (map (fun i : str => i) pr))
      | None => (out, Raised OSError)
      end
  | (out, Raised e) => (out, Raised e)
  end.

(** [try: ... except IndexError: sys.exit(0)]: the handler takes
    [IndexError] only, every other exception leaves the [try] as it is. *)
Definition load (argv : list string) : Loader (list (list Z)) :=
  match try_body argv with
  | (out, Raised IndexError) => (out, Raised (SystemExit 0))
  | r => r
  end.

End Files.

End Startup.

(** ** The main loop (lines 99-202) *)

Module Interp.

(** The direction [d] of the instruction pointer: the source writes
    [0] for right, [1] for up, [2] for left and [3] for down. *)
Inductive direction : Type :=
| RIGHT
| UP
| LEFT
| DOWN.

(** What the program writes on standard output: [print(n)] writes the
    decimal digits of [n] and a newline, [print(chr(c), end='')] writes the
    character with code point [c] and nothing else. *)
Inductive output : Type :=
| Number (n : Z)
| Character (c : Z).

(** The variables of the loop, and the two streams. [stdin] holds the lines
    still to be read, without their terminators; [stdout] what was written
    so far, oldest first. *)
Record machine : Type := {
  x : Z;
  y : Z;
  d : direction;
  stack : Stack.t;
  stdin : list str;
  stdout : list output
}.

Definition with_d (m : machine) (d' : direction) : machine :=
  {| x := x m; y := y m; d := d'; stack := stack m;
     stdin := stdin m; stdout := stdout m |}.

Definition with_stack (m : machine) (s : Stack.t) : machine :=
  {| x := x m; y := y m; d := d m; stack := s;
     stdin := stdin m; stdout := stdout m |}.

Definition with_stdin (m : machine) (i : list str) : machine :=
  {| x := x m; y := y m; d := d m; stack := stack m;
     stdin := i; stdout := stdout m |}.

Definition with_stdout (m : machine) (o : list output) : machine :=
  {| x := x m; y := y m; d := d m; stack := stack m;
     stdin := stdin m; stdout := o |}.

Definition with_xy (m : machine) (x' y' : Z) : machine :=
  {| x := x'; y := y'; d := d m; stack := stack m;
     stdin := stdin m; stdout := stdout m |}.

(** Lines 99-102. *)
Definition initial (input : list str) : machine :=
  {| x := 0; y := 0; d := RIGHT; stack := Stack.__init__;
     stdin := input; stdout := [] |}.

(** A statement either completes, or raises; in both cases the machine is
    the one reached at that point. *)
Inductive outcome (A : Type) : Type :=
| Ok (a : A) (m : machine)
| Raise (e : exn) (m : machine).
Arguments Ok {A} a m.
Arguments Raise {A} e m.

Definition M (A : Type) : Type := machine -> outcome A.

#[export] Instance Monad_M : Monad M := {
  ret := fun A (a : A) m => Ok a m;
  bind := fun A B (c : M A) (k : A -> M B) m =>
            match c m with
            | Ok a m' => k a m'
            | Raise e m' => Raise e m'
            end
}.

Definition raise {A : Type} (e : exn) : M A := fun m => Raise e m.

(** A method call on the variable [stack]. *)
Definition on_stack {A : Type} (c : Stack.St A) : M A :=
  fun m => let (a, s) := c (stack m) in Ok a (with_stack m s).

Definition set_d (d' : direction) : M unit :=
  fun m => Ok tt (with_d m d').

(** [input()]: the next line of standard input without its terminator;
    [EOFError] when the input is exhausted. *)
Definition input : M str :=
  fun m =>
    match stdin m with
    | [] => Raise EOFError m
    | line :: rest => Ok line (with_stdin m rest)
    end.

(** [print]: the value is appended to what was written.  (Failures of the
    write itself are not part of the model: a closed stream, a character
    the stream cannot encode, a number beyond the runtime's limit for the
    conversion to decimal digits.) *)
Definition print (o : output) : M unit :=
  fun m => Ok tt (with_stdout m (stdout m ++ [o])).

(** [ord(s)]: the code point of a string of length one, [TypeError] for
    any other length. *)
Definition ord (s : str) : M Z :=
  match s with
  | [c] => ret c
  | _ => raise TypeError
  end.

(** [chr(i)]: the argument is first converted to a C [int]
    ([OverflowError] outside of 32 bits), then checked against
    [range(0x110000)] ([ValueError] outside). *)
Definition chr (i : Z) : M Z :=
  if (i <? - 2 ^ 31) || (2 ^ 31 <=? i) then raise OverflowError
  else if (i <? 0) || (1114111 <? i) then raise ValueError
  else ret i.

(** [seq[i]] on a Python list: a negative index counts from the end;
    [None] stands for [IndexError]. *)
Definition getitem {A : Type} (seq : list A) (i : Z) : option A :=
  let n := Z.of_nat (List.length seq) in
  let i := if i <? 0 then i + n else i in
  if (i <? 0) || (n <=? i) then None else nth_error seq (Z.to_nat i).

(** Lines 107-110: [program[y][x]], a blank when [IndexError] is raised. *)
Definition fetch (program : list (list Z)) (x y : Z) : Z :=
  match getitem program y with
  | Some row =>
      match getitem row x with
      | Some cmd => cmd
      | None => cp " "
      end
  | None => cp " "
  end.

(** Lines 195-202. *)
Definition move : M unit :=
  fun m =>
    match d m with
    | RIGHT => Ok tt (with_xy m (x m + 1) (y m))
    | UP => Ok tt (with_xy m (x m) (y m - 1))
    | LEFT => Ok tt (with_xy m (x m - 1) (y m))
    | DOWN => Ok tt (with_xy m (x m) (y m + 1))
    end.

Section Host.

(** [int(s)] of the Python runtime on a string: [Some n] when [s] is a
    decimal integer literal the runtime accepts, [None] when it raises
    [ValueError]. *)
Variable py_int : str -> option Z.

Definition int (s : str) : M Z :=
  match py_int s with
  | Some n => ret n
  | None => raise ValueError
  end.

(** Lines 153-169. *)
Definition vertical_branch : M unit :=
  nonempty <- on_stack Stack.__bool__ ;;
  if nonempty then
    a <- on_stack Stack.pop ;;
    (if truthy a then set_d UP else set_d DOWN) ;;
    on_stack (Stack.push a)
  else set_d DOWN.

(** Lines 171-188. *)
Definition horizontal_branch : M unit :=
  nonempty <- on_stack Stack.__bool__ ;;
  if nonempty then
    a <- on_stack Stack.pop ;;
    a <- on_stack Stack.pop ;;
    (if truthy a then set_d RIGHT else set_d LEFT) ;;
    on_stack (Stack.push a)
  else set_d LEFT.

(** The [if]/[elif] chain of lines 112-192. *)
Definition dispatch (cmd : Z) : M unit :=
  if cmd =? cp ">" then set_d RIGHT
  else if cmd =? cp "<" then set_d LEFT
  else if cmd =? cp "^" then set_d UP
  else if cmd =? cp "v" then set_d DOWN
  else if char_in cmd "!0" then on_stack (Stack.push 0)
  else if cmd =? cp "+" then on_stack (Stack.add 1)
  else if cmd =? cp "-" then on_stack (Stack.add (-1))
  else if cmd =? cp ":" then
    k <- on_stack Stack.pop ;;
    on_stack (Stack.push k) ;;
    on_stack (Stack.push k)
  else if char_in cmd "\/" then on_stack Stack.swap
  else if cmd =? cp "?" then
    line <- input ;; c <- ord line ;; on_stack (Stack.push c)
  else if cmd =? cp "~" then
    line <- input ;; n <- int line ;; on_stack (Stack.push n)
  else if cmd =? cp "$" then
    on_stack Stack.pop ;; ret tt
  else if cmd =? cp "." then
    n <- on_stack Stack.pop ;; print (Number n)
  else if cmd =? cp "," then
    i <- on_stack Stack.pop ;; c <- chr i ;; print (Character c)
  else if cmd =? cp "|" then vertical_branch
  else if cmd =? cp "_" then horizontal_branch
  else if cmd =? cp "@" then raise (SystemExit 0)
  else ret tt.

(** One turn of the [while True] loop: fetch, dispatch, move. *)
Definition step (program : list (list Z)) : M unit :=
  fun m => (dispatch (fetch program (x m) (y m)) ;; move) m.

(** At most [fuel] turns of the loop: [Ok] when the loop is still running
    after them, [Raise] when a turn raised. *)
Fixpoint run (fuel : nat) (program : list (list Z)) : M unit :=
  match fuel with
  | O => ret tt
  | S fuel' => step program ;; run fuel' program
  end.

End Host.

(** A decimal reader for plain ASCII lines, an instance of the runtime's
    [int]: an optional sign followed by one or more digits. *)
Fixpoint digits (s : str) (acc : Z) : option Z :=
  match s with
  | [] => Some acc
  | c :: rest =>
      if (48 <=? c) && (c <=? 57) then digits rest (10 * acc + (c - 48))
      else None
  end.

Definition ascii_int (s : str) : option Z :=
  match s with
  | [] => None
  | c :: rest =>
      if c =? cp "-" then
        match rest with [] => None | _ => option_map Z.opp (digits rest 0) end
      else if c =? cp "+" then
        match rest with [] => None | _ => digits rest 0 end
      else digits s 0
  end.

End Interp.

(** ** Vocabulary of the properties *)

Import Interp.

(** A statement that never assigns [x] or [y], whether it completes or
    raises. *)
Definition keeps_position {A : Type} (c : M A) : Prop :=
  forall m : machine,
    match c m with
    | Ok _ m' => x m' = x m /\ y m' = y m
    | Raise _ m' => x m' = x m /\ y m' = y m
    end.

(** A statement that always completes. *)
Definition completes {A : Type} (c : M A) : Prop :=
  forall m : machine, exists (a : A) (m' : machine), c m = Ok a m'.

Create HintDb position discriminated.
Create HintDb total discriminated.

(** The instructions that deal with the outside of the loop: the halt
    instruction, the two reads and the two writes.  Only they can end a turn
    with an exception. *)
Definition may_raise (cmd : Z) : bool :=
  (cmd =? cp "@") || (cmd =? cp "?") || (cmd =? cp "~")
  || (cmd =? cp ".") || (cmd =? cp ",").

(** The direction an instruction assigns without looking at the stack. *)
Definition assigned_direction (cmd : Z) : option direction :=
  if cmd =? cp ">" then Some RIGHT
  else if cmd =? cp "<" then Some LEFT
  else if cmd =? cp "^" then Some UP
  else if cmd =? cp "v" then Some DOWN
  else None.

(** ** Vocabulary of the further properties *)

#[local] Existing Instance Stack.Monad_St.

(** Pushing the values of a list one after the other, first value first. *)
Fixpoint push_all (vs : list Z) : Stack.St unit :=
  match vs with
  | [] => ret tt
  | v :: vs' => Stack.push v ;; push_all vs'
  end.

(** [n] calls of [pop] in a row; the values in the order they came out. *)
Fixpoint pop_n (n : nat) : Stack.St (list Z) :=
  match n with
  | O => ret []
  | S n' => v <- Stack.pop ;; vs <- pop_n n' ;; ret (v :: vs)
  end.

(** Every character the [if]/[elif] chain of the loop tests for. *)
Definition instructions : string := "><^v!0+-:\/?~$.,|_@".

Definition is_instruction (cmd : Z) : bool := char_in cmd instructions.

(** The dispatch of the same instruction [n] times in a row. *)
Fixpoint repeat_dispatch (py_int : str -> option Z) (cmd : Z) (n : nat)
    : M unit :=
  match n with
  | O => ret tt
  | S n' => dispatch py_int cmd ;; repeat_dispatch py_int cmd n'
  end.

(** The machine [m] with its pointer [n] cells further in the direction it
    holds. *)
Definition glide (m : machine) (n : Z) : machine :=
  match d m with
  | RIGHT => with_xy m (x m + n) (y m)
  | UP => with_xy m (x m) (y m - n)
  | LEFT => with_xy m (x m - n) (y m)
  | DOWN => with_xy m (x m) (y m + n)
  end.

(** The pointer is outside of every index the grid answers to, the negative
    ones included, and heads further away. *)
Definition escaped (program : list (list Z)) (m : machine) : Prop :=
  match d m with
  | RIGHT => forall row, In row program -> Z.of_nat (List.length row) <= x m
  | LEFT => forall row, In row program -> x m < - Z.of_nat (List.length row)
  | DOWN => Z.of_nat (List.length program) <= y m
  | UP => y m < - Z.of_nat (List.length program)
  end.

(** A statement that only appends to what was written and only takes lines
    from the front of the input, whether it completes or raises. *)
Definition extends_streams {A : Type} (c : M A) : Prop :=
  forall m : machine,
    match c m with
    | Ok _ m' | Raise _ m' =>
        (exists written, stdout m' = stdout m ++ written)
        /\ (exists consumed, stdin m = consumed ++ stdin m')
    end.

Create HintDb streams discriminated.

(** * Properties *)

(** ** The stack *)

Lemma bool_false_iff_empty (self : Stack.t) :
  fst (Stack.__bool__ self) = false <-> self = [].
Proof.
  destruct self as [|data next]; simpl; split; intro H;
    try reflexivity; discriminate H.
Qed.

Lemma pop_nil : Stack.pop [] = (0, []).
Proof. reflexivity. Qed.

Lemma pop_cons (data : Z) (next : Stack.t) :
  Stack.pop (data :: next) = (data, next).
Proof. reflexivity. Qed.

(** [pop] takes at most one node away, whatever the stack. *)
Lemma pop_size (self : Stack.t) :
  Stack.size (snd (Stack.pop self)) = Nat.pred (Stack.size self).
Proof. destruct self; reflexivity. Qed.

(** C1. Whatever sequence of push and pop calls was made on a fresh stack,
    if the stack is then empty ([__bool__] is false), [pop] returns 0 and
    leaves the very same, empty stack of size 0.  [pop] is a total function:
    it has a result on every stack. *)
Theorem pop_on_empty_returns_zero :
  forall calls : list Stack.call,
    fst (Stack.__bool__ (Stack.execs calls Stack.__init__)) = false ->
    Stack.pop (Stack.execs calls Stack.__init__)
      = (0, Stack.execs calls Stack.__init__)
    /\ snd (Stack.pop (Stack.execs calls Stack.__init__)) = []
    /\ Stack.size (snd (Stack.pop (Stack.execs calls Stack.__init__))) = 0%nat.
Proof.
  intros calls Hempty.
  apply bool_false_iff_empty in Hempty.
  rewrite Hempty. repeat split; reflexivity.
Qed.

Lemma pop_on_empty_returns_zero_witness :
  fst (Stack.__bool__
         (Stack.execs [Stack.Push 5; Stack.Pop; Stack.Pop] Stack.__init__))
    = false
  /\ Stack.pop (Stack.execs [Stack.Push 5; Stack.Pop; Stack.Pop] Stack.__init__)
     = (0, []).
Proof.
  split; [reflexivity|].
  apply (pop_on_empty_returns_zero [Stack.Push 5; Stack.Pop; Stack.Pop]).
  reflexivity.
Defined.

(** C6. [swap] is a total function.  On the empty stack it leaves two zeros;
    on a stack holding only [a] it leaves 0 on top of [a]; on a stack of two
    or more values it exchanges the two on top, keeps the rest and keeps the
    size. *)
Theorem swap_short_and_long_stacks :
  Stack.swap [] = (tt, [0; 0])
  /\ Stack.size (snd (Stack.swap [])) = 2%nat
  /\ (forall a : Z, Stack.swap [a] = (tt, [0; a]))
  /\ (forall (a b : Z) (rest : Stack.t),
        Stack.swap (a :: b :: rest) = (tt, b :: a :: rest)
        /\ Stack.size (snd (Stack.swap (a :: b :: rest)))
           = Stack.size (a :: b :: rest)).
Proof.
  repeat split.
Qed.

(** ** The loop: what a statement leaves alone *)

Lemma keeps_ret {A : Type} (a : A) : keeps_position (ret a : M A).
Proof. intro m; simpl; auto. Qed.

Lemma keeps_raise {A : Type} (e : exn) : keeps_position (raise e : M A).
Proof. intro m; simpl; auto. Qed.

Lemma keeps_bind {A B : Type} (c : M A) (k : A -> M B) :
  keeps_position c -> (forall a, keeps_position (k a)) ->
  keeps_position (bind c k).
Proof.
  intros Hc Hk m. specialize (Hc m). simpl.
  destruct (c m) as [a m1|e m1]; [|exact Hc].
  specialize (Hk a m1). destruct Hc as [Hx Hy].
  destruct (k a m1); rewrite <- Hx, <- Hy; exact Hk.
Qed.

Lemma keeps_if {A : Type} (b : bool) (c1 c2 : M A) :
  keeps_position c1 -> keeps_position c2 ->
  keeps_position (if b then c1 else c2).
Proof. destruct b; auto. Qed.

Lemma keeps_on_stack {A : Type} (c : Stack.St A) :
  keeps_position (on_stack c).
Proof. intro m; unfold on_stack; destruct (c (stack m)); simpl; auto. Qed.

Lemma keeps_set_d (d' : direction) : keeps_position (set_d d').
Proof. intro m; simpl; auto. Qed.

Lemma keeps_input : keeps_position input.
Proof. intro m; unfold input; destruct (stdin m); simpl; auto. Qed.

Lemma keeps_print (o : output) : keeps_position (print o).
Proof. intro m; simpl; auto. Qed.

Lemma keeps_ord (s : str) : keeps_position (ord s).
Proof. intro m; destruct s as [|c [|c' s]]; simpl; auto. Qed.

Lemma keeps_chr (i : Z) : keeps_position (chr i).
Proof.
  intro m; unfold chr.
  destruct ((i <? - 2 ^ 31) || (2 ^ 31 <=? i)); simpl; auto.
  destruct ((i <? 0) || (1114111 <? i)); simpl; auto.
Qed.

Lemma keeps_int (py_int : str -> option Z) (s : str) :
  keeps_position (int py_int s).
Proof. intro m; unfold int; destruct (py_int s); simpl; auto. Qed.

#[export] Hint Resolve keeps_ret keeps_raise keeps_bind keeps_if
  keeps_on_stack keeps_set_d keeps_input keeps_print keeps_ord keeps_chr
  keeps_int : position.

Lemma keeps_dispatch (py_int : str -> option Z) (cmd : Z) :
  keeps_position (dispatch py_int cmd).
Proof.
  unfold dispatch, vertical_branch, horizontal_branch.
  repeat (apply keeps_if; [auto 10 with position|]).
  auto with position.
Qed.

Lemma completes_ret {A : Type} (a : A) : completes (ret a : M A).
Proof. intro m; exists a, m; reflexivity. Qed.

Lemma completes_bind {A B : Type} (c : M A) (k : A -> M B) :
  completes c -> (forall a, completes (k a)) -> completes (bind c k).
Proof.
  intros Hc Hk m. destruct (Hc m) as (a & m1 & E).
  destruct (Hk a m1) as (b & m2 & E2).
  exists b, m2. simpl. rewrite E. exact E2.
Qed.

Lemma completes_if {A : Type} (b : bool) (c1 c2 : M A) :
  completes c1 -> completes c2 -> completes (if b then c1 else c2).
Proof. destruct b; auto. Qed.

Lemma completes_on_stack {A : Type} (c : Stack.St A) :
  completes (on_stack c).
Proof.
  intro m; unfold on_stack; destruct (c (stack m)) as [a s].
  exists a, (with_stack m s); reflexivity.
Qed.

Lemma completes_set_d (d' : direction) : completes (set_d d').
Proof. intro m; exists tt, (with_d m d'); reflexivity. Qed.

Lemma completes_print (o : output) : completes (print o).
Proof. intro m; eexists _, _; reflexivity. Qed.

Lemma completes_move : completes move.
Proof. intro m; unfold move; destruct (d m); eexists _, _; reflexivity. Qed.

#[export] Hint Resolve completes_ret completes_bind completes_if
  completes_on_stack completes_set_d completes_print completes_move : total.

Lemma completes_dispatch (py_int : str -> option Z) (cmd : Z) :
  may_raise cmd = false -> completes (dispatch py_int cmd).
Proof.
  unfold may_raise. intro H.
  repeat (apply orb_false_iff in H; destruct H as [H ?]).
  unfold dispatch, vertical_branch, horizontal_branch.
  repeat match goal with
         | E : (cmd =? ?c) = false |- context [cmd =? ?c] => rewrite E
         end.
  repeat (apply completes_if; [auto 10 with total|]).
  auto with total.
Qed.

Lemma dispatch_direction (py_int : str -> option Z) (cmd : Z) (d' : direction)
    (m : machine) :
  assigned_direction cmd = Some d' -> dispatch py_int cmd m = Ok tt (with_d m d').
Proof.
  unfold assigned_direction, dispatch.
  destruct (cmd =? cp ">"); [intro E; inversion E; reflexivity|].
  destruct (cmd =? cp "<"); [intro E; inversion E; reflexivity|].
  destruct (cmd =? cp "^"); [intro E; inversion E; reflexivity|].
  destruct (cmd =? cp "v"); [intro E; inversion E; reflexivity|].
  discriminate.
Qed.

(** ** The branch instructions *)

(** C5. The vertical branch leaves a machine that differs from the one
    before only in [d]: UP when the stack is non-empty with a nonzero top,
    DOWN when the top is zero or the stack is empty.  The stack is the same
    afterwards (the popped value is pushed back; on the empty stack nothing
    is pushed). *)
Theorem vertical_branch_peeks_top :
  forall (py_int : str -> option Z) (m : machine),
    dispatch py_int (cp "|") m
      = Ok tt (with_d m match stack m with
                        | [] => DOWN
                        | a :: _ => if a =? 0 then DOWN else UP
                        end)
    /\ (forall m' : machine,
          dispatch py_int (cp "|") m = Ok tt m' ->
          stack m' = stack m
          /\ Stack.size (stack m') = Stack.size (stack m)).
Proof.
  intros py_int m.
  assert (E : dispatch py_int (cp "|") m
              = Ok tt (with_d m match stack m with
                                | [] => DOWN
                                | a :: _ => if a =? 0 then DOWN else UP
                                end)).
  { destruct m as [x0 y0 d0 s i o]. destruct s as [|a rest].
    - reflexivity.
    - change (dispatch py_int (cp "|")) with vertical_branch.
      unfold vertical_branch, truthy. simpl.
      destruct (a =? 0); reflexivity. }
  split; [exact E|].
  intros m' H. rewrite E in H. inversion H; subst m'. split; reflexivity.
Qed.

(** C4. The horizontal branch on a non-empty stack drops the top value, pops
    the value [a] below it (0 when there is none), sets [d] to RIGHT when
    [a] is nonzero and to LEFT when it is zero, and pushes [a] back.  On the
    empty stack it sets [d] to LEFT and the stack stays empty. *)
Theorem horizontal_branch_drops_top :
  forall (py_int : str -> option Z) (m : machine),
    dispatch py_int (cp "_") m
      = match stack m with
        | [] => Ok tt (with_d m LEFT)
        | _ :: below =>
            let (a, rest) := Stack.pop below in
            Ok tt (with_stack (with_d m (if a =? 0 then LEFT else RIGHT))
                              (a :: rest))
        end
    /\ (stack m = [] -> forall m' : machine,
          dispatch py_int (cp "_") m = Ok tt m' ->
          stack m' = [] /\ d m' = LEFT)
    /\ (forall top : Z, stack m = [top] -> forall m' : machine,
          dispatch py_int (cp "_") m = Ok tt m' ->
          stack m' = [0] /\ d m' = LEFT)
    /\ (forall (top a : Z) (rest : Stack.t),
          stack m = top :: a :: rest -> forall m' : machine,
          dispatch py_int (cp "_") m = Ok tt m' ->
          stack m' = a :: rest
          /\ d m' = if a =? 0 then LEFT else RIGHT).
Proof.
  intros py_int m.
  assert (E : dispatch py_int (cp "_") m
      = match stack m with
        | [] => Ok tt (with_d m LEFT)
        | _ :: below =>
            let (a, rest) := Stack.pop below in
            Ok tt (with_stack (with_d m (if a =? 0 then LEFT else RIGHT))
                              (a :: rest))
        end).
  { change (dispatch py_int (cp "_")) with horizontal_branch.
    destruct m as [x0 y0 d0 s i o]. destruct s as [|top [|a rest]].
    - reflexivity.
    - reflexivity.
    - unfold horizontal_branch, truthy. simpl.
      destruct (a =? 0); reflexivity. }
  split; [exact E|]. rewrite E. clear E.
  split; [|split].
  - intros Hs m' H. rewrite Hs in H. inversion H; subst m'.
    simpl. split; [exact Hs|reflexivity].
  - intros top Hs m' H. rewrite Hs in H. simpl in H.
    inversion H; subst m'. split; reflexivity.
  - intros top a rest Hs m' H. rewrite Hs in H. simpl in H.
    inversion H; subst m'. split; reflexivity.
Qed.

(** ** Movement *)

(** [move] changes the position by one cell in the direction [d], and
    nothing else. *)
Lemma move_one_cell (m : machine) :
  exists m' : machine,
    move m = Ok tt m'
    /\ d m' = d m /\ stack m' = stack m
    /\ (x m', y m')
       = match d m with
         | RIGHT => (x m + 1, y m)
         | UP => (x m, y m - 1)
         | LEFT => (x m - 1, y m)
         | DOWN => (x m, y m + 1)
         end.
Proof.
  unfold move. destruct (d m) eqn:E; eexists; (split; [reflexivity|]);
    simpl; rewrite ?E; auto.
Qed.

(** A turn of the loop is the dispatch followed by the movement. *)
Lemma step_inv (py_int : str -> option Z) (program : list (list Z))
    (m m' : machine) :
  step py_int program m = Ok tt m' ->
  exists m1 : machine,
    dispatch py_int (fetch program (x m) (y m)) m = Ok tt m1
    /\ move m1 = Ok tt m'.
Proof.
  unfold step. simpl.
  destruct (dispatch py_int (fetch program (x m) (y m)) m) as [[] m1|e m1];
    [|discriminate].
  intro H. exists m1. split; [reflexivity|exact H].
Qed.

(** C7. A turn of the loop that completes leaves the instruction pointer
    exactly one cell away from where it was, in the direction [d] holds
    after the dispatch; the instructions [>], [<], [^] and [v] set that
    direction in the same turn.  Every turn completes, the blank one
    included, unless the instruction is the halt, a read or a write. *)
Theorem step_advances_one_cell :
  forall (py_int : str -> option Z) (program : list (list Z)) (m : machine),
    match step py_int program m with
    | Ok _ m' =>
        (x m', y m')
          = match d m' with
            | RIGHT => (x m + 1, y m)
            | UP => (x m, y m - 1)
            | LEFT => (x m - 1, y m)
            | DOWN => (x m, y m + 1)
            end
        /\ Z.abs (x m' - x m) + Z.abs (y m' - y m) = 1
        /\ match assigned_direction (fetch program (x m) (y m)) with
           | Some d' => d m' = d'
           | None => True
           end
    | Raise _ _ => may_raise (fetch program (x m) (y m)) = true
    end.
Proof.
  intros py_int program m.
  destruct (step py_int program m) as [[] m'|e m'] eqn:Hstep.
  - destruct (step_inv _ _ _ _ Hstep) as (m1 & Hd & Hm).
    pose proof (keeps_dispatch py_int (fetch program (x m) (y m)) m) as Hk.
    rewrite Hd in Hk. destruct Hk as [Hx Hy].
    destruct (move_one_cell m1) as (m2 & Hm2 & Hdir & _ & Hpos).
    rewrite Hm in Hm2. inversion Hm2; subst m2; clear Hm2.
    rewrite Hx, Hy, <- Hdir in Hpos.
    split; [exact Hpos|]. split.
    + destruct (d m'); inversion Hpos as [[Ex Ey]]; rewrite Ex, Ey; lia.
    + destruct (assigned_direction (fetch program (x m) (y m))) as [d'|] eqn:Ea;
        [|exact I].
      rewrite (dispatch_direction py_int _ d' m Ea) in Hd.
      inversion Hd; subst m1. rewrite Hdir. reflexivity.
  - destruct (may_raise (fetch program (x m) (y m))) eqn:Hr; [reflexivity|].
    exfalso.
    destruct (completes_dispatch py_int _ Hr m) as ([] & m1 & Hd).
    destruct (completes_move m1) as ([] & m2 & Hm).
    unfold step in Hstep. simpl in Hstep. rewrite Hd, Hm in Hstep.
    discriminate.
Qed.

(** ** The instruction fetch *)

(** Where an index does miss: at or past the length, or below minus the
    length. *)
Lemma getitem_out_of_range {A : Type} (seq : list A) (i : Z) :
  Z.of_nat (List.length seq) <= i \/ i < - Z.of_nat (List.length seq) ->
  getitem seq i = None.
Proof.
  intro H. unfold getitem. cbv zeta.
  destruct (i <? 0) eqn:Hneg;
    [apply Z.ltb_lt in Hneg | apply Z.ltb_ge in Hneg];
    match goal with
    | |- (if ?c then _ else _) = _ => destruct c eqn:Hc
    end; try reflexivity;
    apply orb_false_iff in Hc; destruct Hc as [H1 H2];
    apply Z.ltb_ge in H1; apply Z.leb_gt in H2; lia.
Qed.

Lemma fetch_row_out_of_range (program : list (list Z)) (x y : Z) :
  Z.of_nat (List.length program) <= y \/ y < - Z.of_nat (List.length program) ->
  fetch program x y = cp " ".
Proof.
  intro H. unfold fetch. rewrite (getitem_out_of_range program y H).
  reflexivity.
Qed.

(** An index from [-len] to [-1] does not miss: it selects from the end. *)
Lemma getitem_negative {A : Type} (seq : list A) (i : Z) :
  - Z.of_nat (List.length seq) <= i < 0 ->
  getitem seq i = nth_error seq (Z.to_nat (i + Z.of_nat (List.length seq))).
Proof.
  intros [Hlo Hhi]. unfold getitem. cbv zeta.
  destruct (i <? 0) eqn:Hneg; [|apply Z.ltb_ge in Hneg; lia].
  match goal with
  | |- (if ?c then _ else _) = _ => destruct c eqn:Hc
  end; [|reflexivity].
  apply orb_true_iff in Hc. destruct Hc as [H1|H1];
    [apply Z.ltb_lt in H1 | apply Z.leb_le in H1]; lia.
Qed.

(** C2. On the one-row program [<@] the pointer goes left from (0, 0) to
    (-1, 0); the fetch there is [program[0][-1]], the last cell of the row,
    which holds [@] and not a blank, and the run halts in its second turn. *)
Theorem fetch_negative_column_wraps :
  forall py_int : str -> option Z,
    fetch [lit "<@"] (-1) 0 = cp "@"
    /\ fetch [lit "<@"] (-1) 0 <> cp " "
    /\ fetch [lit "<@"] (-1) (-1) = cp "@"
    /\ run py_int 2 [lit "<@"] (initial [])
       = Raise (SystemExit 0)
           {| x := -1; y := 0; d := LEFT; stack := [];
              stdin := []; stdout := [] |}.
Proof.
  intro py_int. repeat split. discriminate.
Qed.

(** ** The read instructions *)

(** What [?] does with the line it reads, by the length of the line: the
    code point of a line of exactly one character is pushed; for a line of
    any other length, empty or longer, [ord] raises [TypeError] and nothing
    is pushed.  In both cases the line is consumed. *)
Lemma dispatch_read_character (py_int : str -> option Z) (m : machine)
    (line : str) (rest : list str) :
  stdin m = line :: rest ->
  dispatch py_int (cp "?") m
    = match line with
      | [c] => Ok tt (with_stack (with_stdin m rest) (c :: stack m))
      | _ => Raise TypeError (with_stdin m rest)
      end.
Proof.
  intro Hin.
  change (dispatch py_int (cp "?") m)
    with ((line <- input ;; c <- ord line ;; on_stack (Stack.push c)) m).
  simpl. unfold input. rewrite Hin.
  destruct line as [|c [|c' more]]; reflexivity.
Qed.

(** C8. On the program [?.@] with the input line [AB] the first turn does
    not push the code point of [A]: [ord] is given the whole line and
    raises [TypeError], the line is consumed, nothing is pushed, the loop
    stops in that turn whatever the number of turns allowed, and the process
    ends with a traceback and status 1.  The empty line does the same. *)
Theorem read_character_long_line_is_fatal :
  forall (py_int : str -> option Z) (fuel : nat),
    run py_int (S fuel) [lit "?.@"] (initial [lit "AB"])
      = Raise TypeError (initial [])
    /\ run py_int (S fuel) [lit "?.@"] (initial [lit ""])
       = Raise TypeError (initial [])
    /\ stack (initial []) = []
    /\ ~ (exists m' : machine,
            step py_int [lit "?.@"] (initial [lit "AB"]) = Ok tt m'
            /\ stack m' = [cp "A"])
    /\ status (terminate TypeError) = 1
    /\ traceback (terminate TypeError) = true.
Proof.
  intros py_int fuel.
  assert (E : forall line : str,
             List.length line <> 1%nat ->
             run py_int (S fuel) [lit "?.@"] (initial [line])
               = Raise TypeError (initial [])).
  { intros line Hlen.
    change (run py_int (S fuel) [lit "?.@"])
      with (step py_int [lit "?.@"] ;; run py_int fuel [lit "?.@"]).
    cbn [bind Monad_M]. unfold step. cbn [bind Monad_M].
    change (fetch [lit "?.@"] (x (initial [line])) (y (initial [line])))
      with (cp "?").
    rewrite (dispatch_read_character py_int (initial [line]) line []
               eq_refl).
    destruct line as [|c [|c' more]]; try reflexivity.
    exfalso. apply Hlen. reflexivity. }
  split; [apply E; discriminate|].
  split; [apply E; discriminate|].
  split; [reflexivity|].
  split; [|split; reflexivity].
  intros (m' & H & _). discriminate H.
Qed.

(** C9. When the line read by [~] is not an integer for the runtime's [int],
    the turn raises [ValueError] at the read: the line is consumed, the
    stack, the position and the direction are as before, nothing is pushed.
    The loop does not go on, whatever the number of turns allowed, and the
    process ends with a traceback and the non-zero status 1. *)
Theorem read_integer_malformed_is_fatal :
  forall (py_int : str -> option Z) (program : list (list Z)) (m : machine)
         (line : str) (rest : list str) (fuel : nat),
    fetch program (x m) (y m) = cp "~" ->
    stdin m = line :: rest ->
    py_int line = None ->
    dispatch py_int (cp "~") m = Raise ValueError (with_stdin m rest)
    /\ stack (with_stdin m rest) = stack m
    /\ step py_int program m = Raise ValueError (with_stdin m rest)
    /\ run py_int (S fuel) program m = Raise ValueError (with_stdin m rest)
    /\ status (terminate ValueError) = 1
    /\ traceback (terminate ValueError) = true.
Proof.
  intros py_int program m line rest fuel Hcmd Hin Hbad.
  assert (E : dispatch py_int (cp "~") m = Raise ValueError (with_stdin m rest)).
  { change (dispatch py_int (cp "~") m)
      with ((line <- input ;; n <- int py_int line ;;
             on_stack (Stack.push n)) m).
    simpl. unfold input. rewrite Hin. unfold int. rewrite Hbad. reflexivity. }
  assert (Es : step py_int program m = Raise ValueError (with_stdin m rest)).
  { unfold step. rewrite Hcmd. simpl. rewrite E. reflexivity. }
  repeat split; try assumption.
  simpl. rewrite Es. reflexivity.
Qed.

Lemma read_integer_malformed_is_fatal_witness :
  run ascii_int 5 [lit "~.@"] (initial [lit "12a"; lit "7"])
    = Raise ValueError (initial [lit "7"]).
Proof.
  apply (read_integer_malformed_is_fatal ascii_int [lit "~.@"]
           (initial [lit "12a"; lit "7"]) (lit "12a") [lit "7"] 4%nat);
    reflexivity.
Defined.

(** ** The character output *)



(** A value that is a code point is written, and the turn completes. *)
Lemma write_character_code_point (py_int : str -> option Z) (m : machine)
    (i : Z) (below : Stack.t) :
  Stack.pop (stack m) = (i, below) ->
  0 <= i <= 1114111 ->
  dispatch py_int (cp ",") m
    = Ok tt (with_stdout (with_stack m below) (stdout m ++ [Character i])).
Proof.
  intros Hpop [Hlo Hhi].
  change (dispatch py_int (cp ",") m)
    with ((i <- on_stack Stack.pop ;; c <- chr i ;; print (Character c)) m).
  simpl. unfold on_stack. rewrite Hpop. unfold chr.
  destruct ((i <? - 2 ^ 31) || (2 ^ 31 <=? i)) eqn:Hbig.
  - apply orb_true_iff in Hbig. destruct Hbig as [H|H];
      [apply Z.ltb_lt in H | apply Z.leb_le in H]; lia.
  - destruct ((i <? 0) || (1114111 <? i)) eqn:Hcp; [|reflexivity].
    apply orb_true_iff in Hcp. destruct Hcp as [H|H];
      apply Z.ltb_lt in H; lia.
Qed.

(** ** Start-up *)

(** argparse never raises [IndexError]. *)
Lemma parse_known_not_IndexError (argv : list string) :
  forall (f : option string) (extras : bool) (out : list Startup.notice),
    Startup.parse_known argv f extras <> (out, Startup.Raised IndexError).
Proof.
  induction argv as [|a rest IH]; intros f extras out; simpl.
  - destruct f; [destruct extras|]; discriminate.
  - destruct (Startup.is_help a); [discriminate|].
    destruct (Startup.is_option a); [apply IH|].
    destruct f; apply IH.
Qed.

(** The [except IndexError] handler of the loading phase is never taken:
    neither argparse nor the file reading raises [IndexError]. *)
Lemma load_handler_is_dead (readlines : string -> option (list str))
    (argv : list string) :
  Startup.load readlines argv = Startup.try_body readlines argv.
Proof.
  unfold Startup.load, Startup.try_body, Startup.parse_args.
  pose proof (parse_known_not_IndexError argv None false) as H.
  destruct (Startup.parse_known argv None false) as [out [f|e]].
  - destruct (readlines f); reflexivity.
  - destruct e; try reflexivity. exfalso. apply (H out). reflexivity.
Qed.

(** C3. With no argument at all, the loading phase ends in argparse: the
    usage and the error message are written and [SystemExit(2)] is raised.
    The handler of [IndexError] does not apply, so the exit is neither
    silent nor of status 0. *)
Theorem load_without_argument_exits_2 :
  forall readlines : string -> option (list str),
    Startup.load readlines [] = ([Startup.Usage], Startup.Raised (SystemExit 2))
    /\ Startup.load readlines [] <> ([], Startup.Raised (SystemExit 0))
    /\ status (terminate (SystemExit 2)) = 2.
Proof.
  intro readlines.
  split; [reflexivity|]. split; [discriminate|reflexivity].
Qed.

(** ** Runs of whole programs *)

(** The row [!+++.@]: push 0, add one three times, print 3, halt. *)
Example run_prints_three :
  run ascii_int 6 [lit "!+++.@"] (initial [])
    = Raise (SystemExit 0)
        {| x := 5; y := 0; d := RIGHT; stack := [];
           stdin := []; stdout := [Number 3] |}.
Proof. reflexivity. Qed.

(** A single [>]: the pointer leaves the grid to the right and every later
    fetch is blank; after any number of turns the loop is still running. *)
Example run_right_forever :
  run ascii_int 50 [lit ">"] (initial [])
    = Ok tt {| x := 50; y := 0; d := RIGHT; stack := [];
               stdin := []; stdout := [] |}.
Proof. reflexivity. Qed.

(** The horizontal branch on the stack with 7 above 3: 7 is dropped, 3 is
    inspected and kept, the direction is RIGHT. *)
Example horizontal_branch_on_7_3 :
  dispatch ascii_int (cp "_")
    {| x := 0; y := 0; d := DOWN; stack := [7; 3];
       stdin := []; stdout := [] |}
  = Ok tt {| x := 0; y := 0; d := RIGHT; stack := [3];
             stdin := []; stdout := [] |}.
Proof. reflexivity. Qed.

(** A well-formed line for [~] is pushed as its value. *)
Example run_reads_integer :
  run ascii_int 3 [lit "~.@"] (initial [lit "-42"])
    = Raise (SystemExit 0)
        {| x := 2; y := 0; d := RIGHT; stack := [];
           stdin := []; stdout := [Number (-42)] |}.
Proof. reflexivity. Qed.

(** * Further properties of the code *)

(** ** The stack as a last-in first-out store *)

Lemma push_all_spec (vs : list Z) :
  forall self : Stack.t, push_all vs self = (tt, rev vs ++ self).
Proof.
  induction vs as [|v vs IH]; intro self; simpl.
  - reflexivity.
  - rewrite IH. rewrite <- app_assoc. reflexivity.
Qed.

Lemma pop_n_app (vs : list Z) :
  forall self : Stack.t,
    pop_n (List.length vs) (vs ++ self) = (vs, self).
Proof.
  induction vs as [|v vs IH]; intro self; simpl.
  - reflexivity.
  - rewrite IH. reflexivity.
Qed.

(** X1. Values pushed one after the other come back from as many [pop]
    calls in the reverse order, and the stack is then what it was before. *)
Theorem push_all_pop_n_round_trip :
  forall (vs : list Z) (self : Stack.t),
    pop_n (List.length vs) (snd (push_all vs self)) = (rev vs, self).
Proof.
  intros vs self. rewrite push_all_spec. simpl.
  rewrite <- length_rev. apply pop_n_app.
Qed.

(** X2. [n] calls of [pop] return the [n] values on top, followed by a 0 for
    every call made after the stack ran empty; what is left of the stack is
    the part below those values. *)
Theorem pop_n_pads_with_zeros :
  forall (n : nat) (self : Stack.t),
    pop_n n self
      = (firstn n self ++ repeat 0 (n - List.length self), skipn n self).
Proof.
  induction n as [|n IH]; intro self; simpl.
  - reflexivity.
  - destruct self as [|v rest]; simpl.
    + rewrite IH. simpl. rewrite firstn_nil, skipn_nil, Nat.sub_0_r.
      reflexivity.
    + rewrite IH. reflexivity.
Qed.

(** X3. After [swap] the stack holds at least two values: its size is the
    larger of 2 and the size before. *)
Theorem swap_size :
  forall self : Stack.t,
    Stack.size (snd (Stack.swap self)) = Nat.max 2 (Stack.size self).
Proof.
  intros [|a [|b rest]]; reflexivity.
Qed.

(** X4. Two calls of [swap] give the stack back, with zeros added below
    when it held fewer than two values. *)
Theorem swap_twice :
  forall self : Stack.t,
    snd (Stack.swap (snd (Stack.swap self)))
      = self ++ repeat 0 (2 - List.length self).
Proof.
  intros [|a [|b rest]]; simpl.
  - reflexivity.
  - reflexivity.
  - rewrite app_nil_r. reflexivity.
Qed.

(** X5. [add] replaces the top value [a] by [b + a], a missing top counting
    as 0; two calls in a row amount to one call with the sum, and the stack
    is never empty afterwards. *)
Theorem add_composes :
  forall (b1 b2 : Z) (self : Stack.t),
    snd (Stack.add b2 (snd (Stack.add b1 self)))
      = snd (Stack.add (b1 + b2) self)
    /\ snd (Stack.add b1 self)
       = (b1 + fst (Stack.pop self)) :: snd (Stack.pop self)
    /\ Stack.size (snd (Stack.add b1 self)) = Nat.max 1 (Stack.size self).
Proof.
  intros b1 b2 [|a rest]; simpl; repeat split; f_equal; lia.
Qed.

(** ** Stack instructions of the loop *)

Lemma with_stack_same (m : machine) : with_stack m (stack m) = m.
Proof. destruct m; reflexivity. Qed.

Lemma dispatch_add (py_int : str -> option Z) (m : machine) :
  dispatch py_int (cp "+") m
    = Ok tt (with_stack m (snd (Stack.add 1 (stack m))))
  /\ dispatch py_int (cp "-") m
     = Ok tt (with_stack m (snd (Stack.add (-1) (stack m)))).
Proof.
  split.
  - change (dispatch py_int (cp "+")) with (on_stack (Stack.add 1)).
    unfold on_stack. destruct (Stack.add 1 (stack m)) as [[] s]; reflexivity.
  - change (dispatch py_int (cp "-")) with (on_stack (Stack.add (-1))).
    unfold on_stack. destruct (Stack.add (-1) (stack m)) as [[] s]; reflexivity.
Qed.

Lemma bind_ok {A B : Type} (c : M A) (k : A -> M B) (m m1 : machine) (a : A) :
  c m = Ok a m1 -> bind c k m = k a m1.
Proof. intro H. simpl. rewrite H. reflexivity. Qed.

Lemma bind_raise {A B : Type} (c : M A) (k : A -> M B) (m m1 : machine)
    (e : exn) :
  c m = Raise e m1 -> bind c k m = Raise e m1.
Proof. intro H. simpl. rewrite H. reflexivity. Qed.

Lemma add_snd (b : Z) (self : Stack.t) :
  snd (Stack.add b self)
    = (b + fst (Stack.pop self)) :: snd (Stack.pop self).
Proof. destruct self; reflexivity. Qed.

Lemma with_stack_twice (m : machine) (s1 s2 : Stack.t) :
  with_stack (with_stack m s1) s2 = with_stack m s2.
Proof. reflexivity. Qed.

Lemma stack_with_stack (m : machine) (s : Stack.t) :
  stack (with_stack m s) = s.
Proof. reflexivity. Qed.

(** X6. [n] increments in a row, [n] at least one, leave the top value
    raised by [n], and [n] decrements leave it lowered by [n]; on the empty
    stack the result is the one value [n], respectively [-n].  The rest of
    the machine is untouched. *)
Theorem repeated_increment :
  forall (py_int : str -> option Z) (n : nat) (m : machine),
    repeat_dispatch py_int (cp "+") (S n) m
      = Ok tt (with_stack m ((fst (Stack.pop (stack m)) + Z.of_nat (S n))
                             :: snd (Stack.pop (stack m))))
    /\ repeat_dispatch py_int (cp "-") (S n) m
       = Ok tt (with_stack m ((fst (Stack.pop (stack m)) - Z.of_nat (S n))
                              :: snd (Stack.pop (stack m)))).
Proof.
  intros py_int n. induction n as [|n IH]; intro m.
  - destruct (dispatch_add py_int m) as [Hp Hm].
    change (repeat_dispatch py_int ?c 1) with (dispatch py_int c ;; ret tt).
    rewrite (bind_ok _ _ _ _ _ Hp), (bind_ok _ _ _ _ _ Hm), !add_snd.
    split; cbn [ret Monad_M]; do 3 f_equal; lia.
  - destruct (dispatch_add py_int m) as [Hp Hm].
    change (repeat_dispatch py_int ?c (S (S n)))
      with (dispatch py_int c ;; repeat_dispatch py_int c (S n)).
    rewrite (bind_ok _ _ _ _ _ Hp), (bind_ok _ _ _ _ _ Hm).
    destruct (IH (with_stack m (snd (Stack.add 1 (stack m))))) as [IHp _].
    destruct (IH (with_stack m (snd (Stack.add (-1) (stack m))))) as [_ IHm].
    rewrite IHp, IHm. clear IH IHp IHm Hp Hm.
    rewrite !with_stack_twice, !stack_with_stack, !add_snd, !pop_cons.
    cbn [fst snd].
    split; do 3 f_equal; lia.
Qed.

(** X7. An increment followed by a decrement gives a non-empty stack back
    as it was; on the empty stack it leaves the one value 0. *)
Theorem increment_then_decrement :
  forall (py_int : str -> option Z) (m : machine),
    (dispatch py_int (cp "+") ;; dispatch py_int (cp "-")) m
      = Ok tt (with_stack m match stack m with
                            | [] => [0]
                            | a :: rest => a :: rest
                            end).
Proof.
  intros py_int m.
  destruct (dispatch_add py_int m) as [Hp _].
  rewrite (bind_ok _ _ _ _ _ Hp).
  destruct (dispatch_add py_int (with_stack m (snd (Stack.add 1 (stack m)))))
    as [_ Hm].
  rewrite Hm.
  rewrite with_stack_twice, stack_with_stack, !add_snd, pop_cons.
  cbn [fst snd].
  destruct (stack m) as [|a rest]; cbn [Stack.pop fst snd].
  - reflexivity.
  - do 3 f_equal. lia.
Qed.

(** X8. [:] leaves two copies of the top value where there was one; on the
    empty stack it leaves two zeros.  The size grows by one, by two on the
    empty stack. *)
Theorem duplicate_top :
  forall (py_int : str -> option Z) (m : machine),
    dispatch py_int (cp ":") m
      = Ok tt (with_stack m match stack m with
                            | [] => [0; 0]
                            | a :: rest => a :: a :: rest
                            end)
    /\ forall m' : machine,
         dispatch py_int (cp ":") m = Ok tt m' ->
         Stack.size (stack m')
           = (Stack.size (stack m)
              + match stack m with [] => 2 | _ :: _ => 1 end)%nat.
Proof.
  intros py_int m.
  assert (E : dispatch py_int (cp ":") m
      = Ok tt (with_stack m match stack m with
                            | [] => [0; 0]
                            | a :: rest => a :: a :: rest
                            end)).
  { change (dispatch py_int (cp ":") m)
      with ((k <- on_stack Stack.pop ;; on_stack (Stack.push k) ;;
             on_stack (Stack.push k)) m).
    destruct m as [x0 y0 d0 [|a rest] i o]; reflexivity. }
  split; [exact E|].
  intros m' H. rewrite E in H. inversion H; subst m'.
  destruct (stack m) as [|a rest] eqn:Es; simpl;
    unfold Stack.size; simpl; lia.
Qed.

(** ** Cells that hold no instruction *)

Lemma dispatch_not_instruction (py_int : str -> option Z) (cmd : Z)
    (m : machine) :
  is_instruction cmd = false -> dispatch py_int cmd m = Ok tt m.
Proof.
  intro H.
  unfold is_instruction, char_in in H.
  let l := eval vm_compute in (lit instructions) in
    change (lit instructions) with l in H.
  simpl in H.
  repeat (apply orb_false_iff in H; destruct H as [? H]).
  unfold dispatch, char_in.
  let l := eval vm_compute in (lit "!0") in change (lit "!0") with l.
  let l := eval vm_compute in (lit "\/") in change (lit "\/") with l.
  repeat match goal with
         | |- context [cp ?a] =>
             let v := eval vm_compute in (cp a) in change (cp a) with v
         end.
  cbn [existsb].
  repeat match goal with
         | E : (cmd =? ?c) = false |- _ => rewrite ?E; clear E
         end.
  reflexivity.
Qed.

(** X9. A cell whose character is none of the instruction characters (a
    blank, a line terminator, a letter other than [v], ...) changes nothing
    but the position: the whole turn is the movement alone. *)
Theorem step_on_other_character :
  forall (py_int : str -> option Z) (program : list (list Z)) (m : machine),
    is_instruction (fetch program (x m) (y m)) = false ->
    dispatch py_int (fetch program (x m) (y m)) m = Ok tt m
    /\ step py_int program m = Ok tt (glide m 1).
Proof.
  intros py_int program m H.
  pose proof (dispatch_not_instruction py_int _ m H) as E.
  split; [exact E|].
  unfold step. rewrite (bind_ok _ _ _ _ _ E). unfold move, glide.
  destruct (d m); reflexivity.
Qed.

Lemma step_on_other_character_witness :
  step ascii_int [lit "a b"] (initial []) = Ok tt (glide (initial []) 1).
Proof.
  apply (step_on_other_character ascii_int [lit "a b"] (initial [])).
  reflexivity.
Defined.

(** ** The grid and its indices *)

Lemma getitem_nonnegative {A : Type} (seq : list A) (i : Z) :
  0 <= i -> getitem seq i = nth_error seq (Z.to_nat i).
Proof.
  intro Hi. unfold getitem. cbv zeta.
  destruct (i <? 0) eqn:Hneg; [apply Z.ltb_lt in Hneg; lia|].
  rewrite Hneg. cbn [orb].
  destruct (Z.of_nat (List.length seq) <=? i) eqn:Hlen; [|reflexivity].
  apply Z.leb_le in Hlen. symmetry. apply nth_error_None. lia.
Qed.

Lemma getitem_In {A : Type} (seq : list A) (i : Z) (a : A) :
  getitem seq i = Some a -> In a seq.
Proof.
  unfold getitem. cbv zeta.
  match goal with
  | |- (if ?c then _ else _) = _ -> _ => destruct c
  end; [discriminate|].
  apply nth_error_In.
Qed.

(** X10. At coordinates that are not negative the fetch is the plain
    look-up with bounds: the character of row [y], column [x] when the grid
    has one, a blank when the row or the column is missing. *)
Theorem fetch_nonnegative :
  forall (program : list (list Z)) (x y : Z),
    0 <= x -> 0 <= y ->
    fetch program x y
      = match nth_error program (Z.to_nat y) with
        | Some row =>
            match nth_error row (Z.to_nat x) with
            | Some cmd => cmd
            | None => cp " "
            end
        | None => cp " "
        end.
Proof.
  intros program x y Hx Hy. unfold fetch.
  rewrite (getitem_nonnegative program y Hy).
  destruct (nth_error program (Z.to_nat y)) as [row|]; [|reflexivity].
  rewrite (getitem_nonnegative row x Hx). reflexivity.
Qed.

Lemma fetch_nonnegative_witness :
  fetch [lit "ab"; lit "c"] 1 0 = cp "b".
Proof.
  apply (fetch_nonnegative [lit "ab"; lit "c"] 1 0); lia.
Defined.

(** X11. An index from minus the length up to -1, of the list of rows or of
    a row, never misses: it selects the element that many places from the
    end, the same one as the index raised by the length. *)
Theorem getitem_counts_from_the_end :
  forall (A : Type) (seq : list A) (i : Z),
    - Z.of_nat (List.length seq) <= i < 0 ->
    exists a : A,
      getitem seq i = Some a
      /\ getitem seq (i + Z.of_nat (List.length seq)) = Some a
      /\ nth_error (rev seq) (Z.to_nat (- i - 1)) = Some a.
Proof.
  intros A seq i Hi.
  assert (Hlt : (Z.to_nat (i + Z.of_nat (List.length seq))
                 < List.length seq)%nat) by lia.
  destruct (nth_error seq (Z.to_nat (i + Z.of_nat (List.length seq))))
    as [a|] eqn:Ha; [|apply nth_error_None in Ha; lia].
  exists a. split; [|split].
  - rewrite (getitem_negative seq i Hi). exact Ha.
  - rewrite getitem_nonnegative by lia. exact Ha.
  - rewrite nth_error_rev.
    destruct (Nat.ltb_spec (Z.to_nat (- i - 1)) (List.length seq)) as [_|Hge];
      [|lia].
    rewrite <- Ha. f_equal. lia.
Qed.

Lemma getitem_counts_from_the_end_witness :
  exists a : Z, getitem (lit "<@") (-1) = Some a.
Proof.
  destruct (getitem_counts_from_the_end Z (lit "<@") (-1)) as (a & H & _).
  - simpl. lia.
  - exists a. exact H.
Defined.

(** ** A pointer that has left the grid *)

Lemma fetch_escaped (program : list (list Z)) (m : machine) :
  escaped program m -> fetch program (x m) (y m) = cp " ".
Proof.
  unfold escaped. intro H. destruct (d m).
  - unfold fetch. destruct (getitem program (y m)) as [row|] eqn:Hrow;
      [|reflexivity].
    rewrite (getitem_out_of_range row (x m)); [reflexivity|].
    left. apply H. exact (getitem_In _ _ _ Hrow).
  - apply fetch_row_out_of_range. right. exact H.
  - unfold fetch. destruct (getitem program (y m)) as [row|] eqn:Hrow;
      [|reflexivity].
    rewrite (getitem_out_of_range row (x m)); [reflexivity|].
    right. apply H. exact (getitem_In _ _ _ Hrow).
  - apply fetch_row_out_of_range. left. exact H.
Qed.

Lemma escaped_glide (program : list (list Z)) (m : machine) :
  escaped program m -> escaped program (glide m 1).
Proof.
  unfold escaped, glide. destruct (d m) eqn:Hd; simpl; rewrite ?Hd; intro H.
  - intros row Hin. specialize (H row Hin). lia.
  - lia.
  - intros row Hin. specialize (H row Hin). lia.
  - lia.
Qed.

Lemma glide_glide (m : machine) (a b : Z) :
  glide (glide m a) b = glide m (a + b).
Proof.
  unfold glide. destruct (d m) eqn:Hd; simpl; rewrite ?Hd;
    unfold with_xy; simpl; f_equal; lia.
Qed.

Lemma step_escaped (py_int : str -> option Z) (program : list (list Z))
    (m : machine) :
  escaped program m -> step py_int program m = Ok tt (glide m 1).
Proof.
  intro H. unfold step. rewrite (fetch_escaped program m H).
  rewrite (bind_ok _ _ m m tt) by reflexivity.
  unfold move, glide. destruct (d m); reflexivity.
Qed.

(** X12. Once the pointer is past every index the grid answers to and heads
    further away, no turn changes anything but the position, and the loop
    never ends by itself: after any number [n] of turns it is still running,
    the pointer [n] cells further, stack and streams as they were. *)
Theorem run_escaped_never_ends :
  forall (py_int : str -> option Z) (program : list (list Z)) (n : nat)
         (m : machine),
    escaped program m ->
    run py_int n program m = Ok tt (glide m (Z.of_nat n)).
Proof.
  intros py_int program n. induction n as [|n IH]; intros m H.
  - unfold glide. destruct m as [x0 y0 [] s i o]; simpl;
      unfold with_xy; simpl; do 2 f_equal; lia.
  - change (run py_int (S n) program)
      with (step py_int program ;; run py_int n program).
    rewrite (bind_ok _ _ _ _ _ (step_escaped py_int program m H)).
    rewrite (IH _ (escaped_glide program m H)), glide_glide.
    do 2 f_equal. lia.
Qed.

Lemma run_escaped_never_ends_witness :
  run ascii_int 7 [lit ">"] (glide (initial []) 1)
    = Ok tt (glide (glide (initial []) 1) 7).
Proof.
  apply (run_escaped_never_ends ascii_int [lit ">"] 7 (glide (initial []) 1)).
  simpl. intros row [H|[]]. subst row. simpl. lia.
Defined.

(** ** How a run can end *)

Lemma completes_not_raise {A : Type} (c : M A) (m m' : machine) (e : exn) :
  completes c -> c m = Raise e m' -> False.
Proof.
  intros Hc H. destruct (Hc m) as (a & m1 & E). rewrite E in H.
  discriminate H.
Qed.

Ltac cannot_raise H :=
  exfalso; eapply completes_not_raise; [|exact H]; auto 10 with total.

(** The exceptions of one dispatch, instruction by instruction. *)
Lemma dispatch_raise_inv (py_int : str -> option Z) (cmd : Z)
    (m m' : machine) (e : exn) :
  dispatch py_int cmd m = Raise e m' ->
  (cmd = cp "@" /\ e = SystemExit 0 /\ m' = m)
  \/ (cmd = cp "?" /\ (e = EOFError \/ e = TypeError))
  \/ (cmd = cp "~" /\ (e = EOFError \/ e = ValueError))
  \/ (cmd = cp "," /\ (e = ValueError \/ e = OverflowError)).
Proof.
  unfold dispatch. intro H.
  destruct (cmd =? cp ">"); [cannot_raise H|].
  destruct (cmd =? cp "<"); [cannot_raise H|].
  destruct (cmd =? cp "^"); [cannot_raise H|].
  destruct (cmd =? cp "v"); [cannot_raise H|].
  destruct (char_in cmd "!0"); [cannot_raise H|].
  destruct (cmd =? cp "+"); [cannot_raise H|].
  destruct (cmd =? cp "-"); [cannot_raise H|].
  destruct (cmd =? cp ":"); [cannot_raise H|].
  destruct (char_in cmd "\/"); [cannot_raise H|].
  destruct (cmd =? cp "?") eqn:E.
  { apply Z.eqb_eq in E. right; left. split; [exact E|].
    cbn [bind Monad_M] in H. unfold input in H.
    destruct (stdin m) as [|line rest]; [inversion H; auto|].
    destruct line as [|c [|c' more]]; cbn in H; inversion H; auto. }
  destruct (cmd =? cp "~") eqn:E1.
  { apply Z.eqb_eq in E1. right; right; left. split; [exact E1|].
    cbn [bind Monad_M] in H. unfold input in H.
    destruct (stdin m) as [|line rest]; [inversion H; auto|].
    unfold int in H. destruct (py_int line); cbn in H; inversion H; auto. }
  destruct (cmd =? cp "$"); [cannot_raise H|].
  destruct (cmd =? cp "."); [cannot_raise H|].
  destruct (cmd =? cp ",") eqn:E2.
  { apply Z.eqb_eq in E2. right; right; right. split; [exact E2|].
    cbn [bind Monad_M] in H. unfold on_stack in H.
    destruct (Stack.pop (stack m)) as [i below]. unfold chr in H.
    destruct ((i <? - 2 ^ 31) || (2 ^ 31 <=? i)); [inversion H; auto|].
    destruct ((i <? 0) || (1114111 <? i)); inversion H; auto. }
  destruct (cmd =? cp "|");
    [unfold vertical_branch in H; cannot_raise H|].
  destruct (cmd =? cp "_");
    [unfold horizontal_branch in H; cannot_raise H|].
  destruct (cmd =? cp "@") eqn:E3; [|discriminate H].
  apply Z.eqb_eq in E3. left. inversion H. auto.
Qed.

(** A turn that raises raised in its dispatch; the pointer is where it was. *)
Lemma step_raise_inv (py_int : str -> option Z) (program : list (list Z))
    (m m' : machine) (e : exn) :
  step py_int program m = Raise e m' ->
  dispatch py_int (fetch program (x m) (y m)) m = Raise e m'
  /\ x m' = x m /\ y m' = y m.
Proof.
  unfold step. cbn [bind Monad_M]. intro H.
  pose proof (keeps_dispatch py_int (fetch program (x m) (y m)) m) as Hk.
  destruct (dispatch py_int (fetch program (x m) (y m)) m) as [[] m1|e1 m1].
  - exfalso. exact (completes_not_raise move m1 m' e completes_move H).
  - inversion H; subst. split; [reflexivity|exact Hk].
Qed.

(** X13. A run ends only while the pointer is on a cell holding the halt
    instruction, a read or a write ([@], [?], [~], [.] or [,]); the
    direction, stack and branch instructions and every other character
    never end it.  It ends with [SystemExit] exactly when that cell holds
    [@], and the exit code is then 0. *)
Theorem run_ends_only_at_halt_or_io :
  forall (py_int : str -> option Z) (program : list (list Z)) (fuel : nat)
         (m m' : machine) (e : exn),
    run py_int fuel program m = Raise e m' ->
    may_raise (fetch program (x m') (y m')) = true
    /\ (fetch program (x m') (y m') = cp "@" <-> e = SystemExit 0)
    /\ (forall code : Z, e = SystemExit code -> code = 0).
Proof.
  intros py_int program fuel. induction fuel as [|fuel IH]; intros m m' e H.
  - discriminate H.
  - change (run py_int (S fuel) program)
      with (step py_int program ;; run py_int fuel program) in H.
    destruct (step py_int program m) as [[] m1|e1 m1] eqn:Hs.
    + rewrite (bind_ok _ _ _ _ _ Hs) in H. exact (IH _ _ _ H).
    + rewrite (bind_raise _ _ _ _ _ Hs) in H. inversion H; subst e1 m1.
      destruct (step_raise_inv _ _ _ _ _ Hs) as (Hd & Hx & Hy).
      rewrite Hx, Hy.
      destruct (dispatch_raise_inv _ _ _ _ _ Hd)
        as [(Hc & He & _)|[(Hc & He)|[(Hc & He)|(Hc & He)]]];
        rewrite Hc; (split; [reflexivity|]).
      * subst e. split; [split; reflexivity|].
        intros code Hcode. inversion Hcode. reflexivity.
      * split; [split; intro F; [discriminate F|]|];
          destruct He as [He|He]; subst e; try discriminate;
          intros code Hcode; discriminate Hcode.
      * split; [split; intro F; [discriminate F|]|];
          destruct He as [He|He]; subst e; try discriminate;
          intros code Hcode; discriminate Hcode.
      * split; [split; intro F; [discriminate F|]|];
          destruct He as [He|He]; subst e; try discriminate;
          intros code Hcode; discriminate Hcode.
Qed.

Lemma run_ends_only_at_halt_or_io_witness :
  run ascii_int 6 [lit "!+++.@"] (initial [])
    = Raise (SystemExit 0)
        {| x := 5; y := 0; d := RIGHT; stack := [];
           stdin := []; stdout := [Number 3] |}
  /\ may_raise (fetch [lit "!+++.@"] 5 0) = true
  /\ (fetch [lit "!+++.@"] 5 0 = cp "@" <-> SystemExit 0 = SystemExit 0).
Proof.
  split; [reflexivity|].
  destruct (run_ends_only_at_halt_or_io ascii_int [lit "!+++.@"] 6
              (initial [])
              {| x := 5; y := 0; d := RIGHT; stack := [];
                 stdin := []; stdout := [Number 3] |} (SystemExit 0))
    as (H1 & H2 & _).
  - reflexivity.
  - split; [exact H1|exact H2].
Defined.

(** X14. On the halt instruction the loop stops at once: the turn raises
    [SystemExit(0)] before any movement, with the machine as it was, however
    many turns were still allowed; the process ends with status 0 and
    without a traceback. *)
Theorem run_halts_at_halt_instruction :
  forall (py_int : str -> option Z) (program : list (list Z)) (fuel : nat)
         (m : machine),
    fetch program (x m) (y m) = cp "@" ->
    run py_int (S fuel) program m = Raise (SystemExit 0) m
    /\ status (terminate (SystemExit 0)) = 0
    /\ traceback (terminate (SystemExit 0)) = false.
Proof.
  intros py_int program fuel m H. repeat split.
  change (run py_int (S fuel) program)
    with (step py_int program ;; run py_int fuel program).
  apply bind_raise. unfold step. rewrite H. reflexivity.
Qed.

Lemma run_halts_at_halt_instruction_witness :
  run ascii_int 4 [lit "@"] (initial [lit "unread"])
    = Raise (SystemExit 0) (initial [lit "unread"]).
Proof.
  apply (run_halts_at_halt_instruction ascii_int [lit "@"] 3
           (initial [lit "unread"])).
  reflexivity.
Defined.

(** X15. A read instruction, [?] or [~], met when the input is exhausted
    raises [EOFError]: nothing is pushed, the machine is as it was, the loop
    stops there and the process ends with a traceback and status 1. *)
Theorem read_at_end_of_input :
  forall (py_int : str -> option Z) (program : list (list Z)) (fuel : nat)
         (m : machine),
    fetch program (x m) (y m) = cp "?" \/ fetch program (x m) (y m) = cp "~" ->
    stdin m = [] ->
    run py_int (S fuel) program m = Raise EOFError m
    /\ status (terminate EOFError) = 1
    /\ traceback (terminate EOFError) = true.
Proof.
  intros py_int program fuel m Hcmd Hin. repeat split.
  change (run py_int (S fuel) program)
    with (step py_int program ;; run py_int fuel program).
  apply bind_raise. unfold step. apply bind_raise.
  destruct Hcmd as [Hc|Hc]; rewrite Hc.
  - change (dispatch py_int (cp "?") m)
      with ((line <- input ;; c <- ord line ;; on_stack (Stack.push c)) m).
    apply bind_raise. unfold input. rewrite Hin. reflexivity.
  - change (dispatch py_int (cp "~") m)
      with ((line <- input ;; n <- int py_int line ;;
             on_stack (Stack.push n)) m).
    apply bind_raise. unfold input. rewrite Hin. reflexivity.
Qed.

Lemma read_at_end_of_input_witness :
  run ascii_int 3 [lit "~~@"] (initial [lit "5"])
    = Raise EOFError
        {| x := 1; y := 0; d := RIGHT; stack := [5];
           stdin := []; stdout := [] |}.
Proof.
  change (run ascii_int 3 [lit "~~@"] (initial [lit "5"]))
    with (run ascii_int 2 [lit "~~@"]
            {| x := 1; y := 0; d := RIGHT; stack := [5];
               stdin := []; stdout := [] |}).
  apply (read_at_end_of_input ascii_int [lit "~~@"] 1
           {| x := 1; y := 0; d := RIGHT; stack := [5];
              stdin := []; stdout := [] |}).
  - right. reflexivity.
  - reflexivity.
Defined.

(** ** What a run does to the streams and to the position *)

Lemma streams_ret {A : Type} (a : A) : extends_streams (ret a : M A).
Proof.
  intro m. simpl. split; [exists []; symmetry; apply app_nil_r|exists []; reflexivity].
Qed.

Lemma streams_raise {A : Type} (e : exn) : extends_streams (raise e : M A).
Proof.
  intro m. simpl. split; [exists []; symmetry; apply app_nil_r|exists []; reflexivity].
Qed.

Lemma streams_bind {A B : Type} (c : M A) (k : A -> M B) :
  extends_streams c -> (forall a, extends_streams (k a)) ->
  extends_streams (bind c k).
Proof.
  intros Hc Hk m. specialize (Hc m). cbn [bind Monad_M].
  destruct (c m) as [a m1|e m1]; [|exact Hc].
  specialize (Hk a m1). destruct Hc as [[w1 Hw1] [r1 Hr1]].
  assert (G : forall m2 : machine,
             (exists w, stdout m2 = stdout m1 ++ w)
             /\ (exists r, stdin m1 = r ++ stdin m2) ->
             (exists w, stdout m2 = stdout m ++ w)
             /\ (exists r, stdin m = r ++ stdin m2)).
  { intros m2 [[w2 Hw2] [r2 Hr2]]. split.
    - exists (w1 ++ w2). rewrite Hw2, Hw1, app_assoc. reflexivity.
    - exists (r1 ++ r2). rewrite Hr1, Hr2, app_assoc. reflexivity. }
  destruct (k a m1) as [b m2|e m2]; apply G; exact Hk.
Qed.

Lemma streams_if {A : Type} (b : bool) (c1 c2 : M A) :
  extends_streams c1 -> extends_streams c2 ->
  extends_streams (if b then c1 else c2).
Proof. destruct b; auto. Qed.

Lemma streams_on_stack {A : Type} (c : Stack.St A) :
  extends_streams (on_stack c).
Proof.
  intro m. unfold on_stack. destruct (c (stack m)). simpl.
  split; [exists []; symmetry; apply app_nil_r|exists []; reflexivity].
Qed.

Lemma streams_set_d (d' : direction) : extends_streams (set_d d').
Proof.
  intro m. simpl. split; [exists []; symmetry; apply app_nil_r|exists []; reflexivity].
Qed.

Lemma streams_input : extends_streams input.
Proof.
  intro m. unfold input. destruct (stdin m) as [|line rest] eqn:E; simpl.
  - split; [exists []; symmetry; apply app_nil_r|exists []; rewrite E; reflexivity].
  - split; [exists []; symmetry; apply app_nil_r|exists [line]; reflexivity].
Qed.

Lemma streams_print (o : output) : extends_streams (print o).
Proof.
  intro m. simpl. split; [exists [o]; reflexivity|exists []; reflexivity].
Qed.

Lemma streams_ord (s : str) : extends_streams (ord s).
Proof.
  destruct s as [|c [|c' s]]; simpl;
    auto using streams_ret, streams_raise.
Qed.

Lemma streams_chr (i : Z) : extends_streams (chr i).
Proof.
  unfold chr. repeat apply streams_if;
    auto using streams_ret, streams_raise.
Qed.

Lemma streams_int (py_int : str -> option Z) (s : str) :
  extends_streams (int py_int s).
Proof.
  unfold int. destruct (py_int s); auto using streams_ret, streams_raise.
Qed.

Lemma streams_move : extends_streams move.
Proof.
  intro m. unfold move. destruct (d m); simpl;
    (split; [exists []; symmetry; apply app_nil_r|exists []; reflexivity]).
Qed.

#[local] Hint Resolve streams_ret streams_raise streams_bind streams_if
  streams_on_stack streams_set_d streams_input streams_print streams_ord
  streams_chr streams_int streams_move : streams.

Lemma streams_dispatch (py_int : str -> option Z) (cmd : Z) :
  extends_streams (dispatch py_int cmd).
Proof.
  unfold dispatch, vertical_branch, horizontal_branch.
  repeat (apply streams_if; [auto 10 with streams|]).
  auto with streams.
Qed.

Lemma streams_step (py_int : str -> option Z) (program : list (list Z)) :
  extends_streams (step py_int program).
Proof.
  intro m. unfold step.
  exact (streams_bind _ _ (streams_dispatch py_int _)
           (fun _ => streams_move) m).
Qed.

(** X16. Whatever the program and however the run goes on or ends, what was
    written stays written and only grows at its end, and the input is only
    ever taken from its front: the output before the run is a prefix of the
    output after, the input after is a suffix of the input before. *)
Theorem run_extends_streams :
  forall (py_int : str -> option Z) (program : list (list Z)) (fuel : nat)
         (m : machine),
    match run py_int fuel program m with
    | Ok _ m' | Raise _ m' =>
        (exists written, stdout m' = stdout m ++ written)
        /\ (exists consumed, stdin m = consumed ++ stdin m')
    end.
Proof.
  intros py_int program fuel.
  change (extends_streams (run py_int fuel program)).
  induction fuel as [|fuel IH].
  - apply streams_ret.
  - change (run py_int (S fuel) program)
      with (step py_int program ;; run py_int fuel program).
    apply streams_bind; [apply streams_step|intros _; exact IH].
Qed.

(** One turn: a completed turn moved the pointer by one cell, a turn that
    raised left it where it was. *)
Lemma step_distance (py_int : str -> option Z) (program : list (list Z))
    (m : machine) :
  match step py_int program m with
  | Ok _ m' => Z.abs (x m' - x m) + Z.abs (y m' - y m) = 1
  | Raise _ m' => x m' = x m /\ y m' = y m
  end.
Proof.
  destruct (step py_int program m) as [[] m'|e m'] eqn:Hs.
  - destruct (step_inv _ _ _ _ Hs) as (m1 & Hd & Hm).
    pose proof (keeps_dispatch py_int (fetch program (x m) (y m)) m) as Hk.
    rewrite Hd in Hk. destruct Hk as [Hx Hy].
    destruct (move_one_cell m1) as (m2 & Hm2 & _ & _ & Hpos).
    rewrite Hm in Hm2. inversion Hm2; subst m2.
    rewrite Hx, Hy in Hpos.
    destruct (d m1); inversion Hpos as [[Ex Ey]]; rewrite Ex, Ey; lia.
  - destruct (step_raise_inv _ _ _ _ _ Hs) as (_ & Hx & Hy). auto.
Qed.

(** X17. After [fuel] turns, or earlier when the run ended, the pointer is
    at most [fuel] cells away from where it started, counting the cells
    along rows and columns. *)
Theorem run_distance_bound :
  forall (py_int : str -> option Z) (program : list (list Z)) (fuel : nat)
         (m : machine),
    match run py_int fuel program m with
    | Ok _ m' | Raise _ m' =>
        Z.abs (x m' - x m) + Z.abs (y m' - y m) <= Z.of_nat fuel
    end.
Proof.
  intros py_int program fuel. induction fuel as [|fuel IH]; intro m.
  - simpl. lia.
  - change (run py_int (S fuel) program)
      with (step py_int program ;; run py_int fuel program).
    pose proof (step_distance py_int program m) as Hs.
    destruct (step py_int program m) as [[] m1|e m1] eqn:E.
    + rewrite (bind_ok _ _ _ _ _ E). specialize (IH m1).
      destruct (run py_int fuel program m1); lia.
    + rewrite (bind_raise _ _ _ _ _ E). lia.
Qed.

(** ** Reading and writing back *)

(** X19. [?] followed by [,] on an input line of one character that is a
    code point writes that character back: the line is consumed, the
    character is appended to the output, the stack is as before. *)
Theorem read_then_write_character :
  forall (py_int : str -> option Z) (m : machine) (c : Z) (rest : list str),
    stdin m = [c] :: rest ->
    0 <= c <= 1114111 ->
    (dispatch py_int (cp "?") ;; dispatch py_int (cp ",")) m
      = Ok tt (with_stdout (with_stdin m rest) (stdout m ++ [Character c])).
Proof.
  intros py_int m c rest Hin Hc.
  assert (E : dispatch py_int (cp "?") m
              = Ok tt (with_stack (with_stdin m rest) (c :: stack m))).
  { change (dispatch py_int (cp "?") m)
      with ((line <- input ;; c <- ord line ;; on_stack (Stack.push c)) m).
    cbn [bind Monad_M]. unfold input. rewrite Hin. reflexivity. }
  rewrite (bind_ok _ _ _ _ _ E).
  rewrite (write_character_code_point py_int _ c (stack m)
             (eq_refl : Stack.pop (stack (with_stack (with_stdin m rest)
                                            (c :: stack m)))
                        = (c, stack m)) Hc).
  destruct m; reflexivity.
Qed.

Lemma read_then_write_character_witness :
  (dispatch ascii_int (cp "?") ;; dispatch ascii_int (cp ","))
    (initial [lit "A"])
  = Ok tt {| x := 0; y := 0; d := RIGHT; stack := [];
             stdin := []; stdout := [Character 65] |}.
Proof.
  apply (read_then_write_character ascii_int (initial [lit "A"]) 65 []).
  - reflexivity.
  - lia.
Defined.

(** X20. [~] followed by [.] on a line the runtime's [int] accepts writes
    the number read: the line is consumed, the number is appended to the
    output, the stack is as before. *)
Theorem read_then_write_integer :
  forall (py_int : str -> option Z) (m : machine) (line : str) (n : Z)
         (rest : list str),
    stdin m = line :: rest ->
    py_int line = Some n ->
    (dispatch py_int (cp "~") ;; dispatch py_int (cp ".")) m
      = Ok tt (with_stdout (with_stdin m rest) (stdout m ++ [Number n])).
Proof.
  intros py_int m line n rest Hin Hn.
  assert (E : dispatch py_int (cp "~") m
              = Ok tt (with_stack (with_stdin m rest) (n :: stack m))).
  { change (dispatch py_int (cp "~") m)
      with ((line <- input ;; n <- int py_int line ;;
             on_stack (Stack.push n)) m).
    cbn [bind Monad_M]. unfold input. rewrite Hin. unfold int. rewrite Hn.
    reflexivity. }
  rewrite (bind_ok _ _ _ _ _ E).
  change (dispatch py_int (cp "."))
    with (n <- on_stack Stack.pop ;; print (Number n)).
  destruct m; reflexivity.
Qed.

Lemma read_then_write_integer_witness :
  (dispatch ascii_int (cp "~") ;; dispatch ascii_int (cp "."))
    (initial [lit "-42"; lit "x"])
  = Ok tt {| x := 0; y := 0; d := RIGHT; stack := [];
             stdin := [lit "x"]; stdout := [Number (-42)] |}.
Proof.
  apply (read_then_write_integer ascii_int (initial [lit "-42"; lit "x"])
           (lit "-42") (-42) [lit "x"]); reflexivity.
Defined.

(** ** Loading a program *)

(** X21. With the path of a file as the only argument (a word that does not
    start with a dash), when the file opens and is read as the lines [pr],
    the loading phase writes nothing, the handler of [IndexError] stays out
    of the way, and the grid is exactly those lines, in their order, with
    their terminators and their own lengths. *)
Theorem load_single_file :
  forall (readlines : string -> option (list str)) (path : string)
         (pr : list str),
    Startup.is_help path = false ->
    Startup.is_option path = false ->
    readlines path = Some pr ->
    Startup.load readlines [path] = ([], Startup.Return pr).
Proof.
  intros readlines path pr Hh Ho Hr.
  rewrite load_handler_is_dead.
  unfold Startup.try_body, Startup.parse_args. simpl.
  rewrite Hh, Ho, Hr, map_id. reflexivity.
Qed.

Lemma load_single_file_witness :
  Startup.load (fun _ => Some [lit "!+"; lit ".@"]) ["prog.zs"%string]
    = ([], Startup.Return [lit "!+"; lit ".@"]).
Proof.
  apply (load_single_file (fun _ => Some [lit "!+"; lit ".@"])
           "prog.zs"%string [lit "!+"; lit ".@"]); reflexivity.
Defined.
